(** * TFX typed channels and the AI Platform trainer executor

    A shallow embedding of [tfx/types/channel.py] and of
    [tfx/extensions/google_cloud_ai_platform/trainer/executor.py].

    Python objects that the code shares by reference (the artifact list a
    Channel stores, ChannelProducerInfo instances) live in an explicit
    store; methods are computations in a state-and-exception monad over
    that store.  Dictionaries are finite maps. *)

From Stdlib Require Import String Ascii.
From stdpp Require Import base option list gmap strings.

(** ** Python exceptions and the computation monad *)

Inductive exn : Type :=
| ValueError (msg : string)
| TypeError (msg : string)
| AttributeError (msg : string)
| KeyError (msg : string)
| RuntimeError (msg : string).

(** A computation over a state [S] either returns a value or raises; the
    state reached is kept in both cases. *)
Definition M (S A : Type) : Type := S → S * (exn + A).

Definition raise {S A} (e : exn) : M S A := λ s, (s, inl e).

(** Return or raise, as an outcome computed elsewhere says. *)
Definition outcome {S A} (r : exn + A) : M S A := λ s, (s, r).

#[global] Instance M_ret {S} : MRet (M S) := λ A a s, (s, inr a).
#[global] Instance M_bind {S} : MBind (M S) := λ A B k m s,
  match m s with
  | (s', inr a) => k a s'
  | (s', inl e) => (s', inl e)
  end.

(** ** String helpers *)

(** The double-quote and newline characters of the message literals. *)
Definition dquote : string := String (ascii_of_nat 34) EmptyString.
Definition newline : string := String (ascii_of_nat 10) EmptyString.

(** [sep.join(parts)]. *)
Fixpoint join (sep : string) (parts : list string) : string :=
  match parts with
  | [] => ""
  | [x] => x
  | x :: rest => x +:+ sep +:+ join sep rest
  end.

(** Python's [sub in s] on strings. *)
Fixpoint contains (sub s : string) : bool :=
  String.prefix sub s ||
  match s with
  | EmptyString => false
  | String _ s' => contains sub s'
  end.

(** ** Values of the data model *)

Module Artifact.

(** Modelled from the spec: the class [Artifact] of [tfx.types.artifact],
    which channel.py imports, is defined in another module.  An artifact
    is an already existing value that reports a [type_name]; the Channel
    also prints its [repr].  [id] tells distinct instances apart. *)
Record t : Type := mk {
  id : nat;
  type_name : string;
  repr : string
}.

End Artifact.

(** Modelled from the spec: a class derived from [Artifact], the type
    descriptor of a Channel.  It reports a stable type name, which
    channel.py reads as the class attribute [TYPE_NAME]; [class_repr] is
    what [%r] prints for the class. *)
Record artifact_class : Type := mkClass {
  class_repr : string;
  TYPE_NAME : string
}.

(** What a caller may pass as the [type] argument; [r] is the value's
    [repr]. *)
Inductive type_arg : Type :=
| TNone                           (* argument omitted: the default None *)
| TObject (r : string)            (* some value that is not a class *)
| TOtherClass (r : string)        (* a class not derived from Artifact *)
| TClass (c : artifact_class).    (* a class derived from Artifact *)

Definition isclass (t : type_arg) : bool :=
  match t with TOtherClass _ | TClass _ => true | _ => false end.

(** [issubclass(t, Artifact)], evaluated only when [t] is a class. *)
Definition issubclass_Artifact (t : type_arg) : bool :=
  match t with TClass _ => true | _ => false end.

Definition repr_type (t : type_arg) : string :=
  match t with
  | TNone => "None"
  | TObject r => r
  | TOtherClass r => r
  | TClass c => class_repr c
  end.

(** ** The object store *)

Abbreviation loc := nat.

(** Of the iterables that [artifacts] admits, the store holds lists; what
    is stated below about the collection a Channel keeps is stated for
    lists. *)
Inductive obj : Type :=
| OList (xs : list Artifact.t)                    (* a mutable Python list *)
| OProducerInfo (component_id key : string).    (* a ChannelProducerInfo *)

Abbreviation heap := (gmap loc obj).

Definition alloc (o : obj) : M heap loc :=
  λ h, let l := fresh (dom h) in (<[l := o]> h, inr l).

(** Iterating over the object at [l]: its elements when it is a list. *)
Definition list_contents (l : loc) : M heap (list Artifact.t) :=
  λ h, match h !! l with
       | Some (OList xs) => (h, inr xs)
       | _ => (h, inl (TypeError "object is not iterable"))
       end.

(** [list.append(x)] on the list stored at [l]. *)
Definition list_append (l : loc) (x : Artifact.t) : M heap () :=
  λ h, match h !! l with
       | Some (OList xs) => (<[l := OList (xs ++ [x])]> h, inr ())
       | _ => (h, inl (AttributeError "append"))
       end.

(** Truth value of an optional reference: None and the empty list are
    false, every other object is true. *)
Definition truthy (h : heap) (r : option loc) : bool :=
  match r with
  | None => false
  | Some l => match h !! l with
              | Some (OList []) => false
              | _ => true
              end
  end.

(** The [artifacts] argument is absent or refers to a list. *)
Definition list_or_none (h : heap) (artifacts : option loc) : Prop :=
  match artifacts with
  | None => True
  | Some l => ∃ xs, h !! l = Some (OList xs)
  end.

(** ** ChannelProducerInfo *)

Module ChannelProducerInfo.

(** [__init__]: a new object holding the two fields. *)
Definition __init__ (component_id key : string) : M heap loc :=
  alloc (OProducerInfo component_id key).

Definition component_id (p : loc) : M heap string :=
  λ h, match h !! p with
       | Some (OProducerInfo c _) => (h, inr c)
       | _ => (h, inl (AttributeError "component_id"))
       end.

Definition key (p : loc) : M heap string :=
  λ h, match h !! p with
       | Some (OProducerInfo _ k) => (h, inr k)
       | _ => (h, inl (AttributeError "key"))
       end.

(** [p == q].  The class body holds [__init__] only, so the comparison
    is the one it inherits.  Its base [json_utils.Jsonable] is defined
    in another module: [inherited] is the [__eq__] that base supplies,
    if it supplies one; without it the comparison is that of [object],
    identity of the two references. *)
Definition eq (inherited : option (obj → obj → bool)) (h : heap)
    (p q : loc) : bool :=
  match inherited, h !! p, h !! q with
  | Some f, Some a, Some b => f a b
  | _, _, _ => bool_decide (p = q)
  end.

(** Both fields of the two objects match. *)
Definition fields_match (h : heap) (p q : loc) : Prop :=
  ∃ c k c' k',
    h !! p = Some (OProducerInfo c k) ∧ h !! q = Some (OProducerInfo c' k') ∧
    c = c' ∧ k = k'.

End ChannelProducerInfo.

(** ** Channel *)

Module Channel.

(** The attributes [__init__] sets on [self]. *)
Record t : Type := mk {
  type : type_arg;
  _artifacts : loc;
  producer_info : option loc
}.

Definition type_error_msg (ty : type_arg) : string :=
  "Argument " +:+ dquote +:+ "type" +:+ dquote +:+
  " of Channel constructor must be a subclass of tfx.Artifact (got " +:+
  repr_type ty +:+ ").".

Definition mismatch_msg (name : string) : string :=
  "Artifacts provided do not match Channel's artifact type " +:+ name.

(** The [type_name] property: [self.type.TYPE_NAME]. *)
Definition type_name (self : t) : M heap string :=
  match type self with
  | TClass c => mret (TYPE_NAME c)
  | _ => raise (AttributeError "TYPE_NAME")
  end.

(** The body of the loop of [_validate_type], over the elements that
    remain to be visited. *)
Fixpoint validate_loop (self : t) (xs : list Artifact.t) : M heap () :=
  match xs with
  | [] => mret ()
  | artifact :: rest =>
      name ← type_name self;
      if bool_decide (Artifact.type_name artifact ≠ name) then
        name' ← type_name self;
        raise (ValueError (mismatch_msg name'))
      else validate_loop self rest
  end.

Definition _validate_type (self : t) : M heap () :=
  xs ← list_contents (_artifacts self);
  validate_loop self xs.

(** [artifacts or []]. *)
Definition artifacts_or_empty (artifacts : option loc) : M heap loc :=
  λ h, match artifacts with
       | Some l => if truthy h artifacts then (h, inr l)
                   else alloc (OList []) h
       | None => alloc (OList []) h
       end.

Definition __init__ (ty : type_arg) (artifacts producer_info : option loc)
  : M heap t :=
  if negb (isclass ty && issubclass_Artifact ty) then
    raise (ValueError (type_error_msg ty))
  else
    l ← artifacts_or_empty artifacts;
    let self := mk ty l None in
    _validate_type self;;
    mret (mk ty l producer_info).

Definition __repr__ (self : t) : M heap string :=
  xs ← list_contents (_artifacts self);
  let artifacts_str := join (newline +:+ "    ") (Artifact.repr <$> xs) in
  name ← type_name self;
  mret ("Channel(" +:+ newline +:+ "    type_name: " +:+ name +:+ newline +:+
        "    artifacts: [" +:+ artifacts_str +:+ "]" +:+ newline +:+ ")").

(** [get] hands out the stored reference itself. *)
Definition get (self : t) : M heap loc := mret (_artifacts self).

(** Attribute assignment [self.producer_info = p] and its read. *)
Definition set_producer_info (self : t) (p : option loc) : M heap t :=
  mret (mk (type self) (_artifacts self) p).

Definition get_producer_info (self : t) : M heap (option loc) :=
  mret (producer_info self).

(** A consumer's read: call [get] and iterate over what it returned. *)
Definition read (self : t) : M heap (list Artifact.t) :=
  l ← get self;
  list_contents l.

(** Single assignment of [producer_info], as a guarded field would
    behave: a first binding is visible to later reads, and binding
    another object afterwards raises. *)
Definition single_assignment (self : t) (p q : loc) (h : heap) : Prop :=
  ∃ self1,
    set_producer_info self (Some p) h = (h, inr self1) ∧
    get_producer_info self1 h = (h, inr (Some p)) ∧
    (p ≠ q → ∃ e, snd (set_producer_info self1 (Some q) h) = inl e).

(** [get] as a read-only view: whatever a caller appends through the
    reference [get] returned, a later read sees what it saw before. *)
Definition read_only_view (self : t) (h : heap) : Prop :=
  ∀ x h1 r,
    (l ← get self; list_append l x) h = (h1, r) →
    snd (read self h1) = snd (read self h).

(** What a client can do with a Channel through the class: call its
    methods, read its property, assign [producer_info]. *)
Inductive op : Type :=
| OpGet
| OpTypeName
| OpRepr
| OpSetProducerInfo (p : option loc).

Definition step (o : op) (self : t) : M heap t :=
  match o with
  | OpGet => get self;; mret self
  | OpTypeName => type_name self;; mret self
  | OpRepr => __repr__ self;; mret self
  | OpSetProducerInfo p => set_producer_info self p
  end.

Fixpoint run (ops : list op) (self : t) : M heap t :=
  match ops with
  | [] => mret self
  | o :: rest => self' ← step o self; run rest self'
  end.

End Channel.

(** ** The AI Platform trainer executor *)

Module Executor.

#[local] Set Warnings "-register-all".

(** Values found in [exec_properties] and in [custom_config]. *)
Inductive value : Type :=
| VNone
| VStr (s : string)
| VInt (n : Z)
| VDict (d : gmap string value).

Abbreviation artifact_dict := (gmap string (list Artifact.t)).

(** What the executor does to the outside world, in order: the startup
    log of [_log_startup], which it inherits from
    [base_executor.BaseExecutor], the error log of [absl.logging.error],
    and the call of [runner.start_aip_training] with its arguments. *)
Inductive event : Type :=
| LogStartup (input_dict output_dict : artifact_dict)
             (exec_properties : gmap string value)
| LogError (msg : string)
| StartAipTraining (input_dict output_dict : artifact_dict)
                   (exec_properties : gmap string value)
                   (executor_class_path : string)
                   (training_inputs job_id : value).

Definition emit (e : event) : M (list event) () :=
  λ tr, (tr ++ [e], inr ()).

Definition is_submission (e : event) : bool :=
  match e with StartAipTraining _ _ _ _ _ _ => true | _ => false end.

Definition TRAINING_ARGS_KEY : string := "ai_platform_training_args".
Definition JOB_ID_KEY : string := "ai_platform_training_job_id".

(** [d.get(k)] on a value: a dictionary answers, anything else has no
    such method. *)
Definition dict_get (d : value) (k : string) : M (list event) value :=
  match d with
  | VDict m => mret (default VNone (m !! k))
  | _ => raise (AttributeError "get")
  end.

Definition not_found_msg : string :=
  "'" +:+ TRAINING_ARGS_KEY +:+ "' not found in custom_config.".

(** ['%s.%s' % (Executor.__module__, Executor.__name__)] for the class
    [Executor] of the imported module [tfx.components.trainer.executor]. *)
Definition executor_class_path : string :=
  "tfx.components.trainer.executor" +:+ "." +:+ "Executor".

Section Do.

(** [runner.start_aip_training] belongs to another module: the call
    is recorded as an event and what it returns or raises is left
    open. *)
Variable runner_outcome :
  artifact_dict → artifact_dict → gmap string value → string →
  value → value → exn + value.

Definition start_aip_training
    (input_dict output_dict : artifact_dict)
    (exec_properties : gmap string value) (path : string)
    (training_inputs job_id : value) : M (list event) value :=
  emit (StartAipTraining input_dict output_dict exec_properties path
                         training_inputs job_id);;
  outcome (runner_outcome input_dict output_dict exec_properties path
                          training_inputs job_id).

Definition Do (input_dict output_dict : artifact_dict)
    (exec_properties : gmap string value) : M (list event) value :=
  emit (LogStartup input_dict output_dict exec_properties);;
  let custom_config :=
    default (VDict ∅) (exec_properties !! "custom_config") in
  training_inputs ← dict_get custom_config TRAINING_ARGS_KEY;
  match training_inputs with
  | VNone =>
      let err_msg := not_found_msg in
      emit (LogError err_msg);;
      raise (ValueError err_msg)
  | _ =>
      job_id ← dict_get custom_config JOB_ID_KEY;
      start_aip_training input_dict output_dict exec_properties
                         executor_class_path training_inputs job_id
  end.

End Do.

End Executor.

(** ** Concrete objects for the scenarios *)

Module Scenario.

Definition Model : artifact_class :=
  mkClass "<class 'tfx.types.standard_artifacts.Model'>" "Model".
Definition Examples : artifact_class :=
  mkClass "<class 'tfx.types.standard_artifacts.Examples'>" "Examples".

Definition m1 : Artifact.t :=
  Artifact.mk 1 "Model" "Artifact(type_name: Model, id: 1)".
Definition m2 : Artifact.t :=
  Artifact.mk 2 "Model" "Artifact(type_name: Model, id: 2)".
Definition x : Artifact.t :=
  Artifact.mk 3 "Examples" "Artifact(type_name: Examples, id: 3)".

(** A store in which the caller has built the list [[m1, m2]] at
    reference 0 and the list [[m1, x]] at reference 1. *)
Definition store : heap := <[1 := OList [m1; x]]> (<[0 := OList [m1; m2]]> ∅).

(** The same store after the compiler built two producer records. *)
Definition store_with_producers : heap :=
  <[3 := OProducerInfo "Evaluator" "blessing"]>
    (<[2 := OProducerInfo "Trainer" "model"]> store).

(** A store in which the caller has also built an empty list, at
    reference 4. *)
Definition store_with_empty : heap := <[4 := OList []]> store.

(** A remote runner whose job always succeeds. *)
Definition job_succeeds :
  Executor.artifact_dict → Executor.artifact_dict →
  gmap string Executor.value → string →
  Executor.value → Executor.value → exn + Executor.value :=
  λ _ _ _ _ _ _, inr Executor.VNone.

(** A custom_config with training arguments and a job id. *)
Definition config_with_args : gmap string Executor.value :=
  <[Executor.TRAINING_ARGS_KEY :=
      Executor.VDict (<["region" := Executor.VStr "us-central1"]> ∅)]>
    (<[Executor.JOB_ID_KEY := Executor.VStr "job_1"]> ∅).

(** exec_properties without a custom_config entry. *)
Definition props_without_config : gmap string Executor.value :=
  <["module_file" := Executor.VStr "trainer.py"]> ∅.

(** A custom_config that names the training arguments but gives None. *)
Definition config_with_none : gmap string Executor.value :=
  <[Executor.TRAINING_ARGS_KEY := Executor.VNone]> ∅.

End Scenario.

(** * Properties *)

(** ** The monad, unfolded *)

Lemma bind_ret_run {S A B} (m : M S A) (k : A → M S B) s s' a :
  m s = (s', inr a) → (m ≫= k) s = k a s'.
Proof. intros Hm. unfold mbind, M_bind. by rewrite Hm. Qed.

(** ** Strings *)

Lemma prefix_refl s : String.prefix s s = true.
Proof. induction s as [|a s IH]; simpl; [done|]. by destruct (ascii_dec a a). Qed.

Lemma contains_suffix p s : contains s (p +:+ s) = true.
Proof.
  induction p as [|a p IH]; simpl.
  - destruct s; simpl; [done|]. rewrite prefix_refl. by destruct (ascii_dec _ _).
  - rewrite IH. apply orb_true_r.
Qed.

(** The two messages of [Channel.__init__] never coincide: they part at
    their third character. *)
Lemma type_error_msg_not_mismatch ty name :
  Channel.type_error_msg ty ≠ Channel.mismatch_msg name.
Proof. unfold Channel.type_error_msg, Channel.mismatch_msg. simpl. discriminate. Qed.

(** ** Validation *)

Section Validation.

Variables (c : artifact_class) (l : loc) (pi : option loc).

Lemma validate_loop_matching xs h :
  Forall (λ a, Artifact.type_name a = TYPE_NAME c) xs →
  Channel.validate_loop (Channel.mk (TClass c) l pi) xs h = (h, inr ()).
Proof.
  induction 1 as [|a xs Ha _ IH]; simpl; [done|].
  unfold mbind, M_bind. simpl.
  rewrite bool_decide_eq_false_2; [exact IH | by intros ?].
Qed.

Lemma validate_loop_mismatch xs h a :
  a ∈ xs → Artifact.type_name a ≠ TYPE_NAME c →
  Channel.validate_loop (Channel.mk (TClass c) l pi) xs h =
    (h, inl (ValueError (Channel.mismatch_msg (TYPE_NAME c)))).
Proof.
  intros Hin Hne. induction xs as [|b xs IH]; [by apply elem_of_nil in Hin|].
  simpl. unfold mbind, M_bind. simpl.
  destruct (decide (Artifact.type_name b = TYPE_NAME c)) as [Heq|Hb].
  - rewrite bool_decide_eq_false_2 by (by intros ?).
    apply IH. apply elem_of_cons in Hin as [->|Hin]; [done|exact Hin].
  - by rewrite bool_decide_eq_true_2.
Qed.

(** The loop either accepts, and then every element matches, or raises
    the mismatch error; it does nothing else. *)
Lemma validate_loop_cases xs h :
  (Channel.validate_loop (Channel.mk (TClass c) l pi) xs h = (h, inr ()) ∧
   Forall (λ a, Artifact.type_name a = TYPE_NAME c) xs) ∨
  (Channel.validate_loop (Channel.mk (TClass c) l pi) xs h =
     (h, inl (ValueError (Channel.mismatch_msg (TYPE_NAME c)))) ∧
   Exists (λ a, Artifact.type_name a ≠ TYPE_NAME c) xs).
Proof.
  destruct (decide (Forall (λ a, Artifact.type_name a = TYPE_NAME c) xs))
    as [Hall|Hex].
  - left. split; [by apply validate_loop_matching|done].
  - right. apply not_Forall_Exists in Hex; [|solve_decision].
    split; [|done]. apply Exists_exists in Hex as (a & Hin & Hne).
    by eapply validate_loop_mismatch.
Qed.

End Validation.

(** ** Construction *)

Lemma fresh_not_in_heap (h : heap) : h !! fresh (dom h) = None.
Proof. apply not_elem_of_dom. apply is_fresh. Qed.

(** [artifacts or []] keeps the caller's reference when the caller's list
    is not empty. *)
Lemma artifacts_or_empty_nonempty (h : heap) l a xs :
  h !! l = Some (OList (a :: xs)) →
  Channel.artifacts_or_empty (Some l) h = (h, inr l).
Proof. intros Hl. unfold Channel.artifacts_or_empty, truthy. by rewrite Hl. Qed.

(** It makes a new empty list when the caller's list is empty. *)
Lemma artifacts_or_empty_empty (h : heap) l :
  h !! l = Some (OList []) →
  Channel.artifacts_or_empty (Some l) h =
    (<[fresh (dom h) := OList []]> h, inr (fresh (dom h))).
Proof. intros Hl. unfold Channel.artifacts_or_empty, truthy. by rewrite Hl. Qed.

(** In both cases the reference it returns holds the caller's elements. *)
Lemma artifacts_or_empty_list (h : heap) l xs :
  h !! l = Some (OList xs) →
  ∃ h1 l1, Channel.artifacts_or_empty (Some l) h = (h1, inr l1) ∧
           h1 !! l1 = Some (OList xs) ∧
           (xs ≠ [] → h1 = h ∧ l1 = l).
Proof.
  intros Hl. destruct xs as [|a xs].
  - eexists _, _. split; [by apply artifacts_or_empty_empty|].
    split; [apply lookup_insert_eq|done].
  - exists h, l. split; [by eapply artifacts_or_empty_nonempty|done].
Qed.

(** A construction that fails the type check raises before anything is
    stored. *)
Lemma init_invalid_type ty arts pi (h : heap) :
  isclass ty && issubclass_Artifact ty = false →
  Channel.__init__ ty arts pi h =
    (h, inl (ValueError (Channel.type_error_msg ty))).
Proof. intros Hty. unfold Channel.__init__. by rewrite Hty. Qed.

Lemma valid_type_class ty :
  isclass ty && issubclass_Artifact ty = true → ∃ c, ty = TClass c.
Proof. destruct ty as [| | |c]; simpl; try done. by exists c. Qed.

Lemma artifacts_or_empty_returns arts (h : heap) :
  ∃ h1 l, Channel.artifacts_or_empty arts h = (h1, inr l).
Proof.
  unfold Channel.artifacts_or_empty, alloc.
  destruct arts as [l|]; [destruct (truthy h (Some l))|]; eauto.
Qed.

(** [__init__] with a valid type, after [artifacts or []], is the loop
    over the stored list. *)
Lemma init_unfold c arts pi (h h1 : heap) l :
  Channel.artifacts_or_empty arts h = (h1, inr l) →
  Channel.__init__ (TClass c) arts pi h =
    match h1 !! l with
    | Some (OList xs) =>
        match Channel.validate_loop (Channel.mk (TClass c) l None) xs h1 with
        | (s, inr _) => (s, inr (Channel.mk (TClass c) l pi))
        | (s, inl e) => (s, inl e)
        end
    | _ => (h1, inl (TypeError "object is not iterable"))
    end.
Proof.
  intros Hor. unfold Channel.__init__. simpl.
  unfold mbind at 1, M_bind at 1. rewrite Hor.
  unfold Channel._validate_type, list_contents, mbind, M_bind. simpl.
  by destruct (h1 !! l) as [[xs|]|].
Qed.

(** What a construction with a valid type does, by what validation says
    about the list it stored. *)
Lemma init_valid_type c arts pi (h h1 : heap) l xs :
  Channel.artifacts_or_empty arts h = (h1, inr l) →
  h1 !! l = Some (OList xs) →
  (Channel.__init__ (TClass c) arts pi h =
     (h1, inr (Channel.mk (TClass c) l pi)) ∧
   Forall (λ a, Artifact.type_name a = TYPE_NAME c) xs) ∨
  (Channel.__init__ (TClass c) arts pi h =
     (h1, inl (ValueError (Channel.mismatch_msg (TYPE_NAME c)))) ∧
   Exists (λ a, Artifact.type_name a ≠ TYPE_NAME c) xs).
Proof.
  intros Hor Hl. rewrite (init_unfold c arts pi h h1 l Hor), Hl.
  destruct (validate_loop_cases c l None xs h1) as [[-> Hall]|[-> Hex]];
    [left|right]; done.
Qed.

(** A Channel that was constructed holds a valid type and a list all of
    whose elements carry that type's name. *)
Lemma init_success_inv ty arts pi (h h' : heap) ch :
  Channel.__init__ ty arts pi h = (h', inr ch) →
  ∃ c xs,
    ty = TClass c ∧
    ch = Channel.mk (TClass c) (Channel._artifacts ch) pi ∧
    h' !! Channel._artifacts ch = Some (OList xs) ∧
    Forall (λ a, Artifact.type_name a = TYPE_NAME c) xs.
Proof.
  intros Hinit.
  destruct (isclass ty && issubclass_Artifact ty) eqn:Hty.
  - apply valid_type_class in Hty as (c & ->).
    destruct (artifacts_or_empty_returns arts h) as (h1 & l & Hor).
    exists c. destruct (h1 !! l) as [[xs|]|] eqn:Hl.
    + destruct (init_valid_type c arts pi h h1 l xs Hor Hl)
        as [[Hrun Hall]|[Hrun _]]; rewrite Hrun in Hinit; [|done].
      injection Hinit as <- <-. by exists xs.
    + rewrite (init_unfold c arts pi h h1 l Hor), Hl in Hinit. done.
    + rewrite (init_unfold c arts pi h h1 l Hor), Hl in Hinit. done.
  - by rewrite init_invalid_type in Hinit.
Qed.

(** ** Operations of the class after construction *)

(** No method of the class, nor the assignment of [producer_info], touches
    the store, the type or the list reference of a constructed Channel. *)
Lemma step_frame o ch (h : heap) c xs :
  Channel.type ch = TClass c →
  h !! Channel._artifacts ch = Some (OList xs) →
  ∃ ch', Channel.step o ch h = (h, inr ch') ∧
         Channel.type ch' = Channel.type ch ∧
         Channel._artifacts ch' = Channel._artifacts ch.
Proof.
  intros Hty Hl. destruct o as [| | |p]; simpl.
  - by exists ch.
  - exists ch. unfold Channel.type_name. by rewrite Hty.
  - exists ch. unfold Channel.__repr__, list_contents, Channel.type_name.
    unfold mbind, M_bind. by rewrite Hl, Hty.
  - by eexists.
Qed.

Lemma run_frame ops : ∀ ch (h : heap) c xs,
  Channel.type ch = TClass c →
  h !! Channel._artifacts ch = Some (OList xs) →
  ∃ ch', Channel.run ops ch h = (h, inr ch') ∧
         Channel.type ch' = Channel.type ch ∧
         Channel._artifacts ch' = Channel._artifacts ch.
Proof.
  induction ops as [|o ops IH]; intros ch h c xs Hty Hl; simpl.
  - by exists ch.
  - destruct (step_frame o ch h c xs Hty Hl) as (ch1 & Hstep & Hty1 & Hl1).
    destruct (IH ch1 h c xs) as (ch' & Hrun & Hty' & Hl').
    { by rewrite Hty1. } { by rewrite Hl1. }
    exists ch'. erewrite bind_ret_run by exact Hstep.
    split; [done|]. split; congruence.
Qed.

(** C1 as stated fails: the list is validated once, at construction, and
    it is the caller's own list that the Channel keeps and hands out.  In
    scenario A, after the Channel of Model has been constructed, appending
    an artifact of Examples through the reference get() returned makes the
    next read yield an artifact whose type_name is not the Channel's. *)
Lemma type_safety_broken_by_append :
  ∃ ch h'' xs a,
    Channel.__init__ (TClass Scenario.Model) (Some 0) None Scenario.store =
      (Scenario.store, inr ch) ∧
    (l ← Channel.get ch; list_append l Scenario.x) Scenario.store =
      (h'', inr ()) ∧
    Channel.read ch h'' = (h'', inr xs) ∧
    Channel.type_name ch h'' = (h'', inr "Model") ∧
    a ∈ xs ∧ Artifact.type_name a ≠ "Model".
Proof.
  exists (Channel.mk (TClass Scenario.Model) 0 None),
         (<[0 := OList [Scenario.m1; Scenario.m2; Scenario.x]]> Scenario.store),
         [Scenario.m1; Scenario.m2; Scenario.x], Scenario.x.
  split; [reflexivity|]. split; [reflexivity|]. split; [reflexivity|].
  split; [reflexivity|]. split; [|discriminate].
  right. right. left.
Qed.

(** C1, amended.  Once a Channel has been constructed, and after any
    further sequence of operations of the class on it (get, type_name,
    repr, assigning producer_info), get() returns a collection every
    artifact of which reports the Channel's type_name, because none of
    those operations adds artifacts or changes the store.  (It is not an
    invariant at all times: artifacts appended to the kept list by a
    caller are not validated.) *)
Theorem channel_type_safety ty arts pi (h h' : heap) ch ops :
  Channel.__init__ ty arts pi h = (h', inr ch) →
  ∃ ch' l xs name,
    Channel.run ops ch h' = (h', inr ch') ∧
    Channel.get ch' h' = (h', inr l) ∧
    list_contents l h' = (h', inr xs) ∧
    Channel.type_name ch' h' = (h', inr name) ∧
    ∀ a, a ∈ xs → Artifact.type_name a = name.
Proof.
  intros Hinit.
  destruct (init_success_inv _ _ _ _ _ _ Hinit) as (c & xs & -> & Hch & Hl & Hall).
  assert (Channel.type ch = TClass c) as Hty by (by rewrite Hch).
  destruct (run_frame ops ch h' c xs Hty Hl) as (ch' & Hrun & Hty' & Hl').
  exists ch', (Channel._artifacts ch'), xs, (TYPE_NAME c).
  split; [done|]. split; [done|].
  split; [unfold list_contents; by rewrite Hl', Hl|].
  split; [unfold Channel.type_name; by rewrite Hty', Hty|].
  intros a Ha. by eapply Forall_forall in Hall.
Qed.

Lemma channel_type_safety_witness :
  ∃ ch' l xs name,
    Channel.run [Channel.OpGet; Channel.OpSetProducerInfo (Some 2);
                 Channel.OpRepr; Channel.OpTypeName; Channel.OpGet]
      (Channel.mk (TClass Scenario.Model) 0 None)
      Scenario.store_with_producers
      = (Scenario.store_with_producers, inr ch') ∧
    Channel.get ch' Scenario.store_with_producers =
      (Scenario.store_with_producers, inr l) ∧
    list_contents l Scenario.store_with_producers =
      (Scenario.store_with_producers, inr xs) ∧
    Channel.type_name ch' Scenario.store_with_producers =
      (Scenario.store_with_producers, inr name) ∧
    ∀ a, a ∈ xs → Artifact.type_name a = name.
Proof.
  apply (channel_type_safety (TClass Scenario.Model) (Some 0) None
           Scenario.store_with_producers Scenario.store_with_producers).
  reflexivity.
Defined.

(** ** Rejected constructions *)

(** A list holding an artifact of another type makes [__init__] raise the
    mismatch error and leaves the store as it was. *)
Lemma init_mismatch c l xs pi (h : heap) a :
  h !! l = Some (OList xs) →
  a ∈ xs → Artifact.type_name a ≠ TYPE_NAME c →
  Channel.__init__ (TClass c) (Some l) pi h =
    (h, inl (ValueError (Channel.mismatch_msg (TYPE_NAME c)))).
Proof.
  intros Hl Hin Hne.
  destruct xs as [|b xs]; [by apply elem_of_nil in Hin|].
  rewrite (init_unfold c (Some l) pi h h l
             (artifacts_or_empty_nonempty h l b xs Hl)), Hl.
  by rewrite (validate_loop_mismatch c l None (b :: xs) h a Hin Hne).
Qed.

(** C2 (construction validation).  For a valid type descriptor and a list
    holding, at any position, an artifact whose type_name differs from the
    descriptor's, the constructor raises the mismatch error (the
    ValueError of _validate_type) during construction, returns no Channel,
    and leaves the store unchanged. *)
Theorem init_rejects_mismatch c l xs pi (h : heap) a :
  h !! l = Some (OList xs) →
  a ∈ xs → Artifact.type_name a ≠ TYPE_NAME c →
  Channel.__init__ (TClass c) (Some l) pi h =
    (h, inl (ValueError (Channel.mismatch_msg (TYPE_NAME c)))) ∧
  ∀ ch, snd (Channel.__init__ (TClass c) (Some l) pi h) ≠ inr ch.
Proof.
  intros Hl Hin Hne.
  rewrite (init_mismatch c l xs pi h a Hl Hin Hne). by split.
Qed.

Lemma init_rejects_mismatch_witness :
  Channel.__init__ (TClass Scenario.Model) (Some 1) None Scenario.store =
    (Scenario.store,
     inl (ValueError (Channel.mismatch_msg (TYPE_NAME Scenario.Model)))) ∧
  ∀ ch, snd (Channel.__init__ (TClass Scenario.Model) (Some 1) None
               Scenario.store) ≠ inr ch.
Proof.
  apply (init_rejects_mismatch Scenario.Model 1
           [Scenario.m1; Scenario.x] None Scenario.store Scenario.x).
  - reflexivity.
  - right. left.
  - discriminate.
Defined.

(** C3 (no-type rejection).  When the type argument is absent, is not a
    class, or is a class that does not derive from Artifact, the
    constructor raises the ValueError about its type argument and stores
    nothing; with a valid descriptor it never raises that error, whatever
    value the message would quote. *)
Theorem init_type_check ty arts pi (h : heap) :
  (isclass ty && issubclass_Artifact ty = false →
   Channel.__init__ ty arts pi h =
     (h, inl (ValueError (Channel.type_error_msg ty)))) ∧
  (isclass ty && issubclass_Artifact ty = true →
   ∀ ty', snd (Channel.__init__ ty arts pi h) ≠
            inl (ValueError (Channel.type_error_msg ty'))).
Proof.
  split; [apply init_invalid_type|].
  intros Hty ty' Hres. apply valid_type_class in Hty as (c & ->).
  destruct (artifacts_or_empty_returns arts h) as (h1 & l & Hor).
  rewrite (init_unfold c arts pi h h1 l Hor) in Hres.
  destruct (h1 !! l) as [[xs|]|]; try done.
  destruct (validate_loop_cases c l None xs h1) as [[Hrun _]|[Hrun _]];
    rewrite Hrun in Hres; [done|].
  cbn [snd] in Hres.
  apply (type_error_msg_not_mismatch ty' (TYPE_NAME c)). congruence.
Qed.

Lemma init_type_check_witness :
  Channel.__init__ TNone (Some 0) None Scenario.store =
    (Scenario.store, inl (ValueError (Channel.type_error_msg TNone))) ∧
  Channel.__init__ (TOtherClass "<class 'dict'>") (Some 0) None
    Scenario.store =
    (Scenario.store,
     inl (ValueError (Channel.type_error_msg (TOtherClass "<class 'dict'>")))) ∧
  ∀ ty', snd (Channel.__init__ (TClass Scenario.Model) (Some 1) None
                Scenario.store) ≠
           inl (ValueError (Channel.type_error_msg ty')).
Proof.
  split; [|split].
  - apply (proj1 (init_type_check TNone (Some 0) None Scenario.store)).
    reflexivity.
  - apply (proj1 (init_type_check (TOtherClass "<class 'dict'>") (Some 0)
                    None Scenario.store)).
    reflexivity.
  - apply (proj2 (init_type_check (TClass Scenario.Model) (Some 1) None
                    Scenario.store)).
    reflexivity.
Defined.

(** ** Accepted constructions *)

(** C4 (read stability, scenario A).  With a valid descriptor of name N
    and a list [a1, ..., ak] whose artifacts all report N, construction
    succeeds, type_name returns N, and two consecutive reads through
    get() both yield exactly [a1, ..., ak], in order, without changing the
    store. *)
Theorem init_accepts_matching c l xs pi (h : heap) :
  h !! l = Some (OList xs) →
  Forall (λ a, Artifact.type_name a = TYPE_NAME c) xs →
  ∃ h' ch,
    Channel.__init__ (TClass c) (Some l) pi h = (h', inr ch) ∧
    Channel.type_name ch h' = (h', inr (TYPE_NAME c)) ∧
    (r1 ← Channel.read ch; r2 ← Channel.read ch; mret (r1, r2)) h' =
      (h', inr (xs, xs)).
Proof.
  intros Hl Hall.
  destruct (artifacts_or_empty_list h l xs Hl) as (h1 & l1 & Hor & Hl1 & _).
  destruct (init_valid_type c (Some l) pi h h1 l1 xs Hor Hl1)
    as [[Hrun _]|[_ Hex]].
  - exists h1, (Channel.mk (TClass c) l1 pi). split; [done|]. split; [done|].
    assert (Channel.read (Channel.mk (TClass c) l1 pi) h1 = (h1, inr xs))
      as Hread.
    { unfold Channel.read, Channel.get, list_contents, mbind, M_bind. simpl.
      by rewrite Hl1. }
    by do 2 (erewrite bind_ret_run by exact Hread).
  - apply Exists_exists in Hex as (a & Hin & Hne).
    by eapply Forall_forall in Hall.
Qed.

Lemma init_accepts_matching_witness :
  ∃ h' ch,
    Channel.__init__ (TClass Scenario.Model) (Some 0) None Scenario.store =
      (h', inr ch) ∧
    Channel.type_name ch h' = (h', inr "Model") ∧
    (r1 ← Channel.read ch; r2 ← Channel.read ch; mret (r1, r2)) h' =
      (h', inr ([Scenario.m1; Scenario.m2], [Scenario.m1; Scenario.m2])).
Proof.
  apply (init_accepts_matching Scenario.Model 0 [Scenario.m1; Scenario.m2]
           None Scenario.store).
  - reflexivity.
  - repeat constructor.
Defined.

(** ** The error message of a mismatch *)

(** C7 as stated fails in scenario B: the message names Model, the
    Channel's type, and does not name Examples, the type of the artifact
    that does not fit. *)
Lemma mismatch_msg_omits_artifact_type :
  ∃ msg,
    Channel.__init__ (TClass Scenario.Model) (Some 1) None Scenario.store =
      (Scenario.store, inl (ValueError msg)) ∧
    contains "Model" msg = true ∧
    contains (Artifact.type_name Scenario.x) msg = false.
Proof.
  exists "Artifacts provided do not match Channel's artifact type Model".
  split; [reflexivity|]. split; reflexivity.
Qed.

(** C7, amended.  When construction fails on a type mismatch, the message
    of the error is the fixed sentence followed by the Channel's declared
    type name, so it includes that name; it is the same message whichever
    artifact did not fit. *)
Theorem mismatch_msg_names_channel_type c l xs pi (h : heap) a :
  h !! l = Some (OList xs) →
  a ∈ xs → Artifact.type_name a ≠ TYPE_NAME c →
  ∃ msg,
    snd (Channel.__init__ (TClass c) (Some l) pi h) = inl (ValueError msg) ∧
    msg = "Artifacts provided do not match Channel's artifact type "
            +:+ TYPE_NAME c ∧
    contains (TYPE_NAME c) msg = true.
Proof.
  intros Hl Hin Hne. eexists.
  rewrite (init_mismatch c l xs pi h a Hl Hin Hne).
  split; [reflexivity|]. split; [reflexivity|]. apply contains_suffix.
Qed.

Lemma mismatch_msg_names_channel_type_witness :
  ∃ msg,
    snd (Channel.__init__ (TClass Scenario.Model) (Some 1) None
           Scenario.store) = inl (ValueError msg) ∧
    msg = "Artifacts provided do not match Channel's artifact type "
            +:+ "Model" ∧
    contains "Model" msg = true.
Proof.
  apply (mismatch_msg_names_channel_type Scenario.Model 1
           [Scenario.m1; Scenario.x] None Scenario.store Scenario.x).
  - reflexivity.
  - right. left.
  - discriminate.
Defined.

(** ** Binding producer_info *)

(** C5 as stated fails: on a Channel already bound to the producer record
    at reference 2, binding the different record at reference 3 is not
    refused. *)
Lemma rebinding_not_refused :
  ¬ Channel.single_assignment (Channel.mk (TClass Scenario.Model) 0 None)
      2 3 Scenario.store_with_producers.
Proof.
  intros (self1 & Hset & _ & Hrefuse).
  destruct Hrefuse as [e He]; [done|]. discriminate He.
Qed.

(** C5, amended.  Binding producer_info succeeds and the bound value is
    what later reads return; a second binding, to any value, succeeds as
    well and replaces the first. *)
Theorem producer_info_last_binding_wins self p q (h : heap) :
  (self1 ← Channel.set_producer_info self p;
   Channel.get_producer_info self1) h = (h, inr p) ∧
  (self1 ← Channel.set_producer_info self p;
   self2 ← Channel.set_producer_info self1 q;
   Channel.get_producer_info self2) h = (h, inr q).
Proof. split; reflexivity. Qed.

(** Scenario C: a Channel of Model without artifacts, bound to the record
    of Trainer's output model, gives that record back. *)
Example scenario_producer_info_read_back :
  (ch ← Channel.__init__ (TClass Scenario.Model) None None;
   p ← ChannelProducerInfo.__init__ "Trainer" "model";
   ch ← Channel.set_producer_info ch (Some p);
   r ← Channel.get_producer_info ch;
   match r with
   | Some p' => id ← ChannelProducerInfo.component_id p';
                k ← ChannelProducerInfo.key p';
                mret (id, k)
   | None => raise (AttributeError "component_id")
   end) ∅ =
  (<[1 := OProducerInfo "Trainer" "model"]> (<[0 := OList []]> ∅),
   inr ("Trainer", "model")).
Proof. reflexivity. Qed.

(** ** The reference returned by get *)

(** C6 as stated fails: appending through the reference that get()
    returned changes what the next read of the Channel yields. *)
Lemma get_handle_not_read_only :
  ∃ ch,
    Channel.__init__ (TClass Scenario.Model) (Some 0) None Scenario.store =
      (Scenario.store, inr ch) ∧
    ¬ Channel.read_only_view ch Scenario.store.
Proof.
  exists (Channel.mk (TClass Scenario.Model) 0 None).
  split; [reflexivity|]. intros Hview.
  specialize (Hview Scenario.x _ _ eq_refl). discriminate Hview.
Qed.

(** C6, amended.  For every constructed Channel whose stored collection
    is a list, get() returns the very reference the Channel stores, and
    an append made through it is seen by the next read: the Channel then
    yields its former artifacts followed by the appended one. *)
Theorem get_returns_stored_list ty arts pi (h h' : heap) ch xs x :
  Channel.__init__ ty arts pi h = (h', inr ch) →
  h' !! Channel._artifacts ch = Some (OList xs) →
  ∃ l h'',
    Channel.get ch h' = (h', inr l) ∧ l = Channel._artifacts ch ∧
    Channel.read ch h' = (h', inr xs) ∧
    list_append l x h' = (h'', inr ()) ∧
    Channel.read ch h'' = (h'', inr (xs ++ [x])).
Proof.
  intros _ Hl.
  exists (Channel._artifacts ch),
         (<[Channel._artifacts ch := OList (xs ++ [x])]> h').
  split; [done|]. split; [done|].
  unfold Channel.read, Channel.get, list_contents, list_append, mbind, M_bind.
  simpl. rewrite Hl, lookup_insert_eq. done.
Qed.

Lemma get_returns_stored_list_witness :
  ∃ l h'',
    Channel.get (Channel.mk (TClass Scenario.Model) 0 None) Scenario.store =
      (Scenario.store, inr l) ∧
    l = 0 ∧
    Channel.read (Channel.mk (TClass Scenario.Model) 0 None) Scenario.store =
      (Scenario.store, inr [Scenario.m1; Scenario.m2]) ∧
    list_append l Scenario.x Scenario.store = (h'', inr ()) ∧
    Channel.read (Channel.mk (TClass Scenario.Model) 0 None) h'' =
      (h'', inr ([Scenario.m1; Scenario.m2] ++ [Scenario.x])).
Proof.
  apply (get_returns_stored_list (TClass Scenario.Model) (Some 0) None
           Scenario.store Scenario.store).
  - reflexivity.
  - reflexivity.
Defined.

(** ** Equality of producer records *)

(** C8 as stated fails: two records built one after the other from the
    same component id and key have matching fields and are not equal
    (no [__eq__] coming from the base class). *)
Lemma equal_fields_unequal_records :
  ∃ h p q,
    (p ← ChannelProducerInfo.__init__ "Trainer" "model";
     q ← ChannelProducerInfo.__init__ "Trainer" "model";
     mret (p, q)) ∅ = (h, inr (p, q)) ∧
    ChannelProducerInfo.fields_match h p q ∧
    ChannelProducerInfo.eq None h p q = false.
Proof.
  exists (<[1 := OProducerInfo "Trainer" "model"]>
            (<[0 := OProducerInfo "Trainer" "model"]> ∅)), 0, 1.
  split; [reflexivity|]. split; [|reflexivity].
  exists "Trainer", "model", "Trainer", "model". by repeat split.
Qed.

Lemma eq_default (h : heap) p q :
  ChannelProducerInfo.eq None h p q = bool_decide (p = q).
Proof. reflexivity. Qed.

(** C8, amended.  With no [__eq__] coming from the base class, for every
    pair of ProducerInfo objects p and q, p equals q iff they are one and
    the same object; so equal objects have matching fields, but matching
    fields do not make two objects equal: a newly constructed record
    differs from every record already there, also when both its fields
    match. *)
Theorem producer_info_eq_is_identity (h : heap) p q c k :
  h !! p = Some (OProducerInfo c k) →
  (ChannelProducerInfo.eq None h p q = true ↔ p = q) ∧
  (ChannelProducerInfo.eq None h p q = true →
   ChannelProducerInfo.fields_match h p q) ∧
  ∀ c' k', ∃ h' q',
    ChannelProducerInfo.__init__ c' k' h = (h', inr q') ∧
    ChannelProducerInfo.eq None h' p q' = false ∧
    (ChannelProducerInfo.fields_match h' p q' ↔ c = c' ∧ k = k').
Proof.
  intros Hp. rewrite eq_default.
  split; [apply bool_decide_eq_true|].
  split.
  { intros <-%bool_decide_eq_true. by exists c, k, c, k. }
  intros c' k'.
  exists (<[fresh (dom h) := OProducerInfo c' k']> h), (fresh (dom h)).
  assert (p ≠ fresh (dom h)) as Hne.
  { intros ->. by rewrite fresh_not_in_heap in Hp. }
  split; [done|]. rewrite eq_default.
  split; [by apply bool_decide_eq_false|].
  unfold ChannelProducerInfo.fields_match.
  rewrite lookup_insert_eq, lookup_insert_ne, Hp by done.
  split.
  - intros (c1 & k1 & c2 & k2 & H1 & H2 & -> & ->). split; congruence.
  - intros [-> ->]. by exists c', k', c', k'.
Qed.

Lemma producer_info_eq_is_identity_witness :
  (ChannelProducerInfo.eq None Scenario.store_with_producers 2 3 = true ↔
   2 = 3) ∧
  (ChannelProducerInfo.eq None Scenario.store_with_producers 2 3 = true →
   ChannelProducerInfo.fields_match Scenario.store_with_producers 2 3) ∧
  ∀ c' k', ∃ h' q',
    ChannelProducerInfo.__init__ c' k' Scenario.store_with_producers =
      (h', inr q') ∧
    ChannelProducerInfo.eq None h' 2 q' = false ∧
    (ChannelProducerInfo.fields_match h' 2 q' ↔
     "Trainer" = c' ∧ "model" = k').
Proof.
  apply (producer_info_eq_is_identity Scenario.store_with_producers 2 3
           "Trainer" "model").
  reflexivity.
Defined.

(** ** The trainer executor *)

Section DoProperties.

Import Executor.

Variable runner_outcome :
  artifact_dict → artifact_dict → gmap string value → string →
  value → value → exn + value.

(** [Do], once custom_config is known to be the dictionary [d]. *)
Lemma Do_with_dict i o (ep : gmap string value) d tr :
  default (VDict ∅) (ep !! "custom_config") = VDict d →
  Do runner_outcome i o ep tr =
    match default VNone (d !! TRAINING_ARGS_KEY) with
    | VNone =>
        (tr ++ [LogStartup i o ep; LogError not_found_msg],
         inl (ValueError not_found_msg))
    | v =>
        let job_id := default VNone (d !! JOB_ID_KEY) in
        (tr ++ [LogStartup i o ep;
                StartAipTraining i o ep executor_class_path v job_id],
         runner_outcome i o ep executor_class_path v job_id)
    end.
Proof.
  intros Hcfg. unfold Do. rewrite Hcfg.
  unfold start_aip_training, dict_get, emit, outcome, raise, mbind, M_bind.
  simpl.
  destruct (default VNone (d !! TRAINING_ARGS_KEY));
    by rewrite <- app_assoc.
Qed.

(** C9, amended.  With a custom_config dictionary in which the
    training-arguments key is absent or maps to None, Do logs and raises
    the ValueError of the missing arguments, and nothing it did is a
    job submission; when the key maps to any value other than None, Do
    submits the remote job with that value and ends as the runner
    does. *)
Theorem Do_training_args i o (ep : gmap string value) d tr :
  ep !! "custom_config" = Some (VDict d) →
  (d !! TRAINING_ARGS_KEY = None ∨ d !! TRAINING_ARGS_KEY = Some VNone →
   ∃ done,
     Do runner_outcome i o ep tr =
       (tr ++ done, inl (ValueError not_found_msg)) ∧
     Forall (λ e, is_submission e = false) done) ∧
  (∀ v, d !! TRAINING_ARGS_KEY = Some v → v ≠ VNone →
     let job_id := default VNone (d !! JOB_ID_KEY) in
     Do runner_outcome i o ep tr =
       (tr ++ [LogStartup i o ep;
               StartAipTraining i o ep executor_class_path v job_id],
        runner_outcome i o ep executor_class_path v job_id)).
Proof.
  intros Hcfg.
  assert (default (VDict ∅) (ep !! "custom_config") = VDict d) as Hd
    by (by rewrite Hcfg).
  split.
  - intros Hkey. exists [LogStartup i o ep; LogError not_found_msg].
    rewrite (Do_with_dict i o ep d tr Hd).
    split; [by destruct Hkey as [-> | ->]|]. by repeat constructor.
  - intros v Hv Hnone. rewrite (Do_with_dict i o ep d tr Hd), Hv. simpl.
    by destruct v.
Qed.

(** C10.  Without any custom_config entry in exec_properties, Do takes
    the configuration to be empty: it logs and raises the ValueError of
    the missing training arguments, exactly the outcome it has when
    custom_config is a dictionary without that key, and it raises no
    KeyError. *)
Theorem Do_without_custom_config i o (ep : gmap string value) tr :
  ep !! "custom_config" = None →
  Do runner_outcome i o ep tr =
    (tr ++ [LogStartup i o ep; LogError not_found_msg],
     inl (ValueError not_found_msg)) ∧
  (∀ d, d !! TRAINING_ARGS_KEY = None →
     snd (Do runner_outcome i o (<["custom_config" := VDict d]> ep) tr) =
     snd (Do runner_outcome i o ep tr)) ∧
  (∀ m, snd (Do runner_outcome i o ep tr) ≠ inl (KeyError m)).
Proof.
  intros Hcfg.
  assert (Do runner_outcome i o ep tr =
            (tr ++ [LogStartup i o ep; LogError not_found_msg],
             inl (ValueError not_found_msg))) as Hrun.
  { rewrite (Do_with_dict i o ep ∅ tr) by (by rewrite Hcfg).
    by rewrite lookup_empty. }
  rewrite Hrun. split; [done|]. split; [|done].
  intros d Hkey.
  rewrite (Do_with_dict i o _ d tr) by (by rewrite lookup_insert_eq).
  by rewrite Hkey.
Qed.

End DoProperties.

(** C9 as stated fails: a custom_config in which the training-arguments
    key is present, with the value None, makes Do raise without
    submitting a job. *)
Lemma present_key_not_submitted :
  is_Some (Scenario.config_with_none !! Executor.TRAINING_ARGS_KEY) ∧
  ∃ tr,
    Executor.Do Scenario.job_succeeds ∅ ∅
      (<["custom_config" := Executor.VDict Scenario.config_with_none]> ∅) [] =
      (tr, inl (ValueError Executor.not_found_msg)) ∧
    existsb Executor.is_submission tr = false.
Proof.
  split; [by eexists|].
  exists [Executor.LogStartup ∅ ∅
            (<["custom_config" := Executor.VDict Scenario.config_with_none]> ∅);
          Executor.LogError Executor.not_found_msg].
  split; reflexivity.
Qed.

Lemma Do_training_args_witness :
  (∃ done,
     Executor.Do Scenario.job_succeeds ∅ ∅
       (<["custom_config" := Executor.VDict ∅]> Scenario.props_without_config)
       [] = ([] ++ done, inl (ValueError Executor.not_found_msg)) ∧
     Forall (λ e, Executor.is_submission e = false) done) ∧
  Executor.Do Scenario.job_succeeds ∅ ∅
    (<["custom_config" := Executor.VDict Scenario.config_with_args]> ∅) [] =
    ([] ++
     [Executor.LogStartup ∅ ∅
        (<["custom_config" := Executor.VDict Scenario.config_with_args]> ∅);
      Executor.StartAipTraining ∅ ∅
        (<["custom_config" := Executor.VDict Scenario.config_with_args]> ∅)
        Executor.executor_class_path
        (Executor.VDict (<["region" := Executor.VStr "us-central1"]> ∅))
        (default Executor.VNone
           (Scenario.config_with_args !! Executor.JOB_ID_KEY))],
     Scenario.job_succeeds ∅ ∅
       (<["custom_config" := Executor.VDict Scenario.config_with_args]> ∅)
       Executor.executor_class_path
       (Executor.VDict (<["region" := Executor.VStr "us-central1"]> ∅))
       (default Executor.VNone
          (Scenario.config_with_args !! Executor.JOB_ID_KEY))).
Proof.
  split.
  - refine (proj1 (Do_training_args Scenario.job_succeeds ∅ ∅
                     (<["custom_config" := Executor.VDict ∅]>
                        Scenario.props_without_config) ∅ [] _) _).
    + reflexivity.
    + left. reflexivity.
  - refine (proj2 (Do_training_args Scenario.job_succeeds ∅ ∅
                     (<["custom_config" :=
                          Executor.VDict Scenario.config_with_args]> ∅)
                     Scenario.config_with_args [] _) _ _ _).
    + reflexivity.
    + reflexivity.
    + discriminate.
Defined.

Lemma Do_without_custom_config_witness :
  Executor.Do Scenario.job_succeeds ∅ ∅ Scenario.props_without_config [] =
    ([] ++ [Executor.LogStartup ∅ ∅ Scenario.props_without_config;
            Executor.LogError Executor.not_found_msg],
     inl (ValueError Executor.not_found_msg)) ∧
  (∀ d, d !! Executor.TRAINING_ARGS_KEY = None →
     snd (Executor.Do Scenario.job_succeeds ∅ ∅
            (<["custom_config" := Executor.VDict d]>
               Scenario.props_without_config) []) =
     snd (Executor.Do Scenario.job_succeeds ∅ ∅
            Scenario.props_without_config [])) ∧
  (∀ m, snd (Executor.Do Scenario.job_succeeds ∅ ∅
               Scenario.props_without_config []) ≠ inl (KeyError m)).
Proof.
  apply (Do_without_custom_config Scenario.job_succeeds ∅ ∅
           Scenario.props_without_config []).
  reflexivity.
Defined.


(** * Further properties of the code *)

(** ** What construction does to the store *)

(** [artifacts or []] either leaves the store alone or adds one new empty
    list to it. *)
Lemma artifacts_or_empty_store arts (h h1 : heap) l :
  Channel.artifacts_or_empty arts h = (h1, inr l) →
  (h1 = h ∧ arts = Some l ∧ truthy h arts = true) ∨
  (h1 = <[fresh (dom h) := OList []]> h ∧ l = fresh (dom h) ∧
   truthy h arts = false).
Proof.
  unfold Channel.artifacts_or_empty, alloc. intros Hor.
  destruct arts as [l0|].
  - destruct (truthy h (Some l0)) eqn:Ht; injection Hor as <- <-;
      [left|right]; done.
  - injection Hor as <- <-. by right.
Qed.

(** The store [__init__] leaves behind is the one [artifacts or []] left,
    or the initial one when the type was refused. *)
Lemma init_store ty arts pi (h : heap) :
  fst (Channel.__init__ ty arts pi h) =
    if isclass ty && issubclass_Artifact ty
    then fst (Channel.artifacts_or_empty arts h)
    else h.
Proof.
  destruct (isclass ty && issubclass_Artifact ty) eqn:Hty.
  - apply valid_type_class in Hty as (c & ->).
    destruct (artifacts_or_empty_returns arts h) as (h1 & l & Hor).
    rewrite (init_unfold c arts pi h h1 l Hor), Hor. simpl.
    destruct (h1 !! l) as [[xs|]|]; try done.
    by destruct (validate_loop_cases c l None xs h1) as [[-> _]|[-> _]].
  - by rewrite init_invalid_type.
Qed.

(** X3.  When the artifacts argument is a list or is absent, [__init__],
    whether it succeeds or raises, changes no object that is already in
    the store: the store it leaves is the initial one, or the initial one
    with one new empty list.  A refused type argument leaves the store as
    it was, whatever the other arguments are. *)
Theorem init_store_frame ty arts pi (h : heap) :
  (list_or_none h arts →
   h ⊆ fst (Channel.__init__ ty arts pi h) ∧
   (fst (Channel.__init__ ty arts pi h) = h ∨
    fst (Channel.__init__ ty arts pi h) = <[fresh (dom h) := OList []]> h)) ∧
  (isclass ty && issubclass_Artifact ty = false →
   fst (Channel.__init__ ty arts pi h) = h).
Proof.
  rewrite init_store.
  destruct (isclass ty && issubclass_Artifact ty); [|by repeat split; auto].
  split; [|done]. intros _.
  destruct (artifacts_or_empty_returns arts h) as (h1 & l & Hor).
  rewrite Hor. simpl.
  destruct (artifacts_or_empty_store arts h h1 l Hor)
    as [(-> & _ & _)|(-> & _ & _)].
  - split; auto.
  - split; [|by right].
    apply insert_subseteq, fresh_not_in_heap.
Qed.

Lemma init_store_frame_witness :
  (Scenario.store_with_empty ⊆
     fst (Channel.__init__ (TClass Scenario.Model) (Some 4) None
            Scenario.store_with_empty) ∧
   (fst (Channel.__init__ (TClass Scenario.Model) (Some 4) None
           Scenario.store_with_empty) = Scenario.store_with_empty ∨
    fst (Channel.__init__ (TClass Scenario.Model) (Some 4) None
           Scenario.store_with_empty) =
      <[fresh (dom Scenario.store_with_empty) := OList []]>
        Scenario.store_with_empty)) ∧
  fst (Channel.__init__ TNone (Some 1) None Scenario.store) = Scenario.store.
Proof.
  split.
  - apply (proj1 (init_store_frame (TClass Scenario.Model) (Some 4) None
                    Scenario.store_with_empty)).
    exists []. reflexivity.
  - apply (proj2 (init_store_frame TNone (Some 1) None Scenario.store)).
    reflexivity.
Defined.

(** ** Which list a Channel holds *)

(** X1.  A caller's list that is empty at construction is not the list the
    Channel keeps: [artifacts or []] replaces it by a new list, so what
    the caller appends to its own list afterwards never shows up in the
    Channel, whose reads stay empty. *)
Theorem init_empty_list_not_kept c l pi (h : heap) x :
  h !! l = Some (OList []) →
  ∃ h' ch h'',
    Channel.__init__ (TClass c) (Some l) pi h = (h', inr ch) ∧
    Channel._artifacts ch ≠ l ∧
    list_append l x h' = (h'', inr ()) ∧
    h'' !! l = Some (OList [x]) ∧
    Channel.read ch h'' = (h'', inr []).
Proof.
  intros Hl.
  assert (l ≠ fresh (dom h)) as Hne.
  { intros ->. by rewrite fresh_not_in_heap in Hl. }
  pose proof (artifacts_or_empty_empty h l Hl) as Hor.
  exists (<[fresh (dom h) := OList []]> h),
         (Channel.mk (TClass c) (fresh (dom h)) pi),
         (<[l := OList [x]]> (<[fresh (dom h) := OList []]> h)).
  split.
  { rewrite (init_unfold c (Some l) pi h _ _ Hor), lookup_insert_eq. done. }
  split; [by apply not_eq_sym|].
  split.
  { unfold list_append. by rewrite lookup_insert_ne, Hl. }
  split; [apply lookup_insert_eq|].
  unfold Channel.read, Channel.get, list_contents, mbind, M_bind. simpl.
  by rewrite lookup_insert_ne, lookup_insert_eq.
Qed.

Lemma init_empty_list_not_kept_witness :
  ∃ h' ch h'',
    Channel.__init__ (TClass Scenario.Model) (Some 4) None
      Scenario.store_with_empty = (h', inr ch) ∧
    Channel._artifacts ch ≠ 4 ∧
    list_append 4 Scenario.m1 h' = (h'', inr ()) ∧
    h'' !! 4 = Some (OList [Scenario.m1]) ∧
    Channel.read ch h'' = (h'', inr []).
Proof.
  apply (init_empty_list_not_kept Scenario.Model 4 None
           Scenario.store_with_empty Scenario.m1).
  reflexivity.
Defined.

(** X2.  A caller's list that is not empty and passes validation is kept
    as it is, without a copy: construction leaves the store unchanged and
    get() returns the caller's own reference.  Validation is not repeated
    later: an artifact of any type that the caller appends to its list
    after construction is part of what the Channel then yields, while
    type_name still returns the declared name. *)
Theorem init_nonempty_list_kept c l a xs pi (h : heap) x :
  h !! l = Some (OList (a :: xs)) →
  Forall (λ b, Artifact.type_name b = TYPE_NAME c) (a :: xs) →
  ∃ ch h'',
    Channel.__init__ (TClass c) (Some l) pi h = (h, inr ch) ∧
    Channel.get ch h = (h, inr l) ∧
    list_append l x h = (h'', inr ()) ∧
    Channel.read ch h'' = (h'', inr (a :: xs ++ [x])) ∧
    Channel.type_name ch h'' = (h'', inr (TYPE_NAME c)).
Proof.
  intros Hl Hall.
  pose proof (artifacts_or_empty_nonempty h l a xs Hl) as Hor.
  destruct (init_valid_type c (Some l) pi h h l (a :: xs) Hor Hl)
    as [[Hrun _]|[_ Hex]].
  - exists (Channel.mk (TClass c) l pi), (<[l := OList ((a :: xs) ++ [x])]> h).
    split; [done|]. split; [done|].
    split; [unfold list_append; by rewrite Hl|].
    split; [|done].
    unfold Channel.read, Channel.get, list_contents, mbind, M_bind. simpl.
    by rewrite lookup_insert_eq.
  - apply Exists_exists in Hex as (b & Hin & Hne).
    by eapply Forall_forall in Hall.
Qed.

Lemma init_nonempty_list_kept_witness :
  ∃ ch h'',
    Channel.__init__ (TClass Scenario.Model) (Some 0) None Scenario.store =
      (Scenario.store, inr ch) ∧
    Channel.get ch Scenario.store = (Scenario.store, inr 0) ∧
    list_append 0 Scenario.x Scenario.store = (h'', inr ()) ∧
    Channel.read ch h'' =
      (h'', inr (Scenario.m1 :: [Scenario.m2] ++ [Scenario.x])) ∧
    Channel.type_name ch h'' = (h'', inr (TYPE_NAME Scenario.Model)).
Proof.
  apply (init_nonempty_list_kept Scenario.Model 0 Scenario.m1 [Scenario.m2]
           None Scenario.store Scenario.x).
  - reflexivity.
  - repeat constructor.
Defined.

(** X4.  For a class derived from Artifact and a list argument,
    construction succeeds exactly when every artifact of the list reports
    the class's TYPE_NAME; in particular it always succeeds on an empty
    list. *)
Theorem init_succeeds_iff_all_match c l xs pi (h : heap) :
  h !! l = Some (OList xs) →
  (∃ h' ch, Channel.__init__ (TClass c) (Some l) pi h = (h', inr ch)) ↔
  Forall (λ a, Artifact.type_name a = TYPE_NAME c) xs.
Proof.
  intros Hl.
  destruct (artifacts_or_empty_list h l xs Hl) as (h1 & l1 & Hor & Hl1 & _).
  destruct (init_valid_type c (Some l) pi h h1 l1 xs Hor Hl1)
    as [[Hrun Hall]|[Hrun Hex]].
  - split; [done|]. intros _. by eexists _, _.
  - split.
    + intros (h' & ch & Hok). by rewrite Hrun in Hok.
    + intros Hall. apply Exists_exists in Hex as (a & Hin & Hne).
      by eapply Forall_forall in Hall.
Qed.

Lemma init_succeeds_iff_all_match_witness :
  ((∃ h' ch, Channel.__init__ (TClass Scenario.Model) (Some 1) None
               Scenario.store = (h', inr ch)) ↔
   Forall (λ a, Artifact.type_name a = "Model") [Scenario.m1; Scenario.x]) ∧
  ((∃ h' ch, Channel.__init__ (TClass Scenario.Model) (Some 4) None
               Scenario.store_with_empty = (h', inr ch)) ↔
   Forall (λ a, Artifact.type_name a = "Model") []).
Proof.
  split.
  - apply (init_succeeds_iff_all_match Scenario.Model 1
             [Scenario.m1; Scenario.x] None Scenario.store).
    reflexivity.
  - apply (init_succeeds_iff_all_match Scenario.Model 4 [] None
             Scenario.store_with_empty).
    reflexivity.
Defined.

(** X5.  Channels constructed without artifacts always succeed and never
    share their list: each gets an empty list of its own, so an artifact
    appended to the list of the first leaves the second one empty. *)
Theorem default_channels_do_not_share c1 c2 pi1 pi2 (h : heap) x :
  ∃ h1 ch1 h2 ch2 h3,
    Channel.__init__ (TClass c1) None pi1 h = (h1, inr ch1) ∧
    Channel.__init__ (TClass c2) None pi2 h1 = (h2, inr ch2) ∧
    Channel._artifacts ch1 ≠ Channel._artifacts ch2 ∧
    Channel.read ch1 h2 = (h2, inr []) ∧
    Channel.read ch2 h2 = (h2, inr []) ∧
    (l ← Channel.get ch1; list_append l x) h2 = (h3, inr ()) ∧
    Channel.read ch1 h3 = (h3, inr [x]) ∧
    Channel.read ch2 h3 = (h3, inr []).
Proof.
  set (l1 := fresh (dom h)).
  set (h1 := <[l1 := OList []]> h).
  set (l2 := fresh (dom h1)).
  set (h2 := <[l2 := OList []]> h1).
  assert (l1 ≠ l2) as Hne.
  { intros Heq. pose proof (fresh_not_in_heap h1) as Hf.
    fold l2 in Hf. rewrite <- Heq in Hf. unfold h1 in Hf.
    by rewrite lookup_insert_eq in Hf. }
  assert (h2 !! l1 = Some (OList [])) as Hl1.
  { unfold h2. rewrite lookup_insert_ne by done. apply lookup_insert_eq. }
  exists h1, (Channel.mk (TClass c1) l1 pi1), h2,
         (Channel.mk (TClass c2) l2 pi2), (<[l1 := OList [x]]> h2).
  split.
  { rewrite (init_unfold c1 None pi1 h h1 l1 eq_refl).
    unfold h1. by rewrite lookup_insert_eq. }
  split.
  { rewrite (init_unfold c2 None pi2 h1 h2 l2 eq_refl).
    unfold h2. by rewrite lookup_insert_eq. }
  split; [done|].
  assert (h2 !! l2 = Some (OList [])) as Hl2 by apply lookup_insert_eq.
  assert (<[l1 := OList [x]]> h2 !! l1 = Some (OList [x])) as Hl1'
    by apply lookup_insert_eq.
  assert (<[l1 := OList [x]]> h2 !! l2 = Some (OList [])) as Hl2'
    by (by rewrite lookup_insert_ne).
  unfold Channel.read, Channel.get, list_contents, list_append, mbind, M_bind.
  simpl. by rewrite Hl1, Hl2, Hl1', Hl2'.
Qed.

(** X8.  Passing producer_info to the constructor is the same as
    constructing without it and assigning the attribute afterwards: both
    give the same store and the same Channel, or raise the same error. *)
Theorem init_then_set_producer_info ty arts pi (h : heap) :
  (ch ← Channel.__init__ ty arts None;
   Channel.set_producer_info ch pi) h =
  Channel.__init__ ty arts pi h.
Proof.
  destruct (isclass ty && issubclass_Artifact ty) eqn:Hty.
  - apply valid_type_class in Hty as (c & ->).
    destruct (artifacts_or_empty_returns arts h) as (h1 & l & Hor).
    unfold mbind at 1, M_bind at 1.
    rewrite !(init_unfold c arts _ h h1 l Hor).
    destruct (h1 !! l) as [[xs|]|]; try done.
    by destruct (validate_loop_cases c l None xs h1) as [[-> _]|[-> _]].
  - unfold mbind, M_bind. by rewrite !init_invalid_type.
Qed.

(** ** Substrings of the rendered texts *)

Lemma contains_unfold sub s :
  contains sub s =
    String.prefix sub s ||
    match s with
    | EmptyString => false
    | String _ s' => contains sub s'
    end.
Proof. by destruct s. Qed.

Lemma prefix_app_l s : ∀ t q,
  String.prefix s t = true → String.prefix s (t +:+ q) = true.
Proof.
  induction s as [|a s IH]; intros t q Hp; [by destruct (t +:+ q)|].
  destruct t as [|b t]; simpl in *; [done|].
  destruct (ascii_dec a b); [by apply IH|done].
Qed.

Lemma contains_app_l s t q :
  contains s t = true → contains s (t +:+ q) = true.
Proof.
  induction t as [|b t IH]; intros Hc.
  - rewrite contains_unfold in Hc. rewrite orb_false_r in Hc.
    rewrite contains_unfold.
    by rewrite (prefix_app_l s EmptyString q Hc).
  - rewrite contains_unfold in Hc. apply orb_true_iff in Hc as [Hp|Hc].
    + rewrite contains_unfold. by rewrite (prefix_app_l s _ q Hp).
    + simpl. rewrite (IH Hc). apply orb_true_r.
Qed.

Lemma contains_app_r s p t :
  contains s t = true → contains s (p +:+ t) = true.
Proof.
  intros Hc. induction p as [|a p IH]; simpl; [done|].
  rewrite IH. apply orb_true_r.
Qed.

Lemma contains_refl s : contains s s = true.
Proof. rewrite contains_unfold. by rewrite prefix_refl. Qed.

(** Every part of a joined text is in the text. *)
Lemma contains_join sep parts x :
  x ∈ parts → contains x (join sep parts) = true.
Proof.
  induction parts as [|y parts IH]; intros Hin; [by apply elem_of_nil in Hin|].
  apply elem_of_cons in Hin as [->|Hin].
  - destruct parts as [|z parts]; simpl; [apply contains_refl|].
    apply contains_app_l, contains_refl.
  - destruct parts as [|z parts]; [by apply elem_of_nil in Hin|].
    change (join sep (y :: z :: parts))
      with (y +:+ sep +:+ join sep (z :: parts)).
    by apply contains_app_r, contains_app_r, IH.
Qed.

(** ** The representation of a Channel *)

(** X6.  On a constructed Channel, [__repr__] returns a text without
    raising and without changing the store; the text includes the
    Channel's type_name and the repr of every artifact the Channel holds,
    and for a Channel without artifacts it is exactly the header, the
    type_name line and an empty pair of brackets. *)
Theorem repr_lists_type_and_artifacts ty arts pi (h h' : heap) ch :
  Channel.__init__ ty arts pi h = (h', inr ch) →
  ∃ s xs name,
    Channel.__repr__ ch h' = (h', inr s) ∧
    Channel.read ch h' = (h', inr xs) ∧
    Channel.type_name ch h' = (h', inr name) ∧
    contains name s = true ∧
    (∀ a, a ∈ xs → contains (Artifact.repr a) s = true) ∧
    (xs = [] →
     s = "Channel(" +:+ newline +:+ "    type_name: " +:+ name +:+ newline +:+
         "    artifacts: []" +:+ newline +:+ ")").
Proof.
  intros Hinit.
  destruct (init_success_inv _ _ _ _ _ _ Hinit)
    as (c & xs & -> & Hch & Hl & _).
  eexists _, xs, (TYPE_NAME c).
  split.
  { unfold Channel.__repr__, list_contents, Channel.type_name, mbind, M_bind.
    rewrite Hl, Hch. simpl. reflexivity. }
  split.
  { unfold Channel.read, Channel.get, list_contents, mbind, M_bind. simpl.
    by rewrite Hl. }
  split; [by rewrite Hch|].
  split; [|split].
  - apply (contains_app_r _ "Channel("), contains_app_r, contains_app_r.
    apply contains_app_l, contains_refl.
  - intros a Ha.
    apply (contains_app_r _ "Channel("), contains_app_r, contains_app_r.
    apply contains_app_r, contains_app_r, contains_app_r.
    apply contains_app_l, contains_join.
    by apply list_elem_of_fmap_2.
  - by intros ->.
Qed.

Lemma repr_lists_type_and_artifacts_witness :
  ∃ s xs name,
    Channel.__repr__ (Channel.mk (TClass Scenario.Model) 0 None)
      Scenario.store = (Scenario.store, inr s) ∧
    Channel.read (Channel.mk (TClass Scenario.Model) 0 None)
      Scenario.store = (Scenario.store, inr xs) ∧
    Channel.type_name (Channel.mk (TClass Scenario.Model) 0 None)
      Scenario.store = (Scenario.store, inr name) ∧
    contains name s = true ∧
    (∀ a, a ∈ xs → contains (Artifact.repr a) s = true) ∧
    (xs = [] →
     s = "Channel(" +:+ newline +:+ "    type_name: " +:+ name +:+ newline +:+
         "    artifacts: []" +:+ newline +:+ ")").
Proof.
  apply (repr_lists_type_and_artifacts (TClass Scenario.Model) (Some 0) None
           Scenario.store Scenario.store).
  reflexivity.
Defined.

(** ** The message about a refused type argument *)

(** X7.  When the type argument is refused, the message of the ValueError
    quotes the repr of the value that was passed: it ends with that repr
    between "(got " and ").", whatever the artifacts and producer_info
    arguments are. *)
Theorem type_error_msg_quotes_repr ty arts pi (h : heap) :
  isclass ty && issubclass_Artifact ty = false →
  ∃ msg intro,
    snd (Channel.__init__ ty arts pi h) = inl (ValueError msg) ∧
    msg = intro +:+ "(got " +:+ repr_type ty +:+ ")." ∧
    contains (repr_type ty) msg = true.
Proof.
  intros Hty. rewrite (init_invalid_type ty arts pi h Hty).
  exists (Channel.type_error_msg ty),
         ("Argument " +:+ dquote +:+ "type" +:+ dquote +:+
          " of Channel constructor must be a subclass of tfx.Artifact ").
  split; [done|]. split; [done|].
  unfold Channel.type_error_msg.
  apply (contains_app_r _ "Argument "), contains_app_r, contains_app_r.
  apply contains_app_r, contains_app_r, contains_app_l, contains_refl.
Qed.

Lemma type_error_msg_quotes_repr_witness :
  ∃ msg intro,
    snd (Channel.__init__ (TOtherClass "<class 'dict'>") (Some 1) None
           Scenario.store) = inl (ValueError msg) ∧
    msg = intro +:+ "(got " +:+ "<class 'dict'>" +:+ ")." ∧
    contains "<class 'dict'>" msg = true.
Proof.
  apply (type_error_msg_quotes_repr (TOtherClass "<class 'dict'>") (Some 1)
           None Scenario.store).
  reflexivity.
Defined.

(** ** Producer records *)

(** X9.  A ChannelProducerInfo built from any two strings, empty ones
    included, is a new object whose component_id and key read back as
    given; building it changes no object already in the store, and
    building further records later does not change what it holds. *)
Theorem producer_info_fields_round_trip c k (h : heap) :
  ∃ h' p,
    ChannelProducerInfo.__init__ c k h = (h', inr p) ∧
    h !! p = None ∧ h ⊆ h' ∧
    ChannelProducerInfo.component_id p h' = (h', inr c) ∧
    ChannelProducerInfo.key p h' = (h', inr k) ∧
    ∀ c2 k2, ∃ h'' q,
      ChannelProducerInfo.__init__ c2 k2 h' = (h'', inr q) ∧ q ≠ p ∧
      ChannelProducerInfo.component_id p h'' = (h'', inr c) ∧
      ChannelProducerInfo.key p h'' = (h'', inr k).
Proof.
  set (p := fresh (dom h)). set (h' := <[p := OProducerInfo c k]> h).
  assert (h' !! p = Some (OProducerInfo c k)) as Hp by apply lookup_insert_eq.
  exists h', p. split; [done|].
  split; [apply fresh_not_in_heap|].
  split; [apply insert_subseteq, fresh_not_in_heap|].
  unfold ChannelProducerInfo.component_id, ChannelProducerInfo.key.
  rewrite Hp. split; [done|]. split; [done|].
  intros c2 k2.
  assert (fresh (dom h') ≠ p) as Hne.
  { intros Heq. pose proof (fresh_not_in_heap h') as Hf.
    rewrite Heq in Hf. by rewrite Hp in Hf. }
  exists (<[fresh (dom h') := OProducerInfo c2 k2]> h'), (fresh (dom h')).
  split; [done|]. split; [done|].
  by rewrite lookup_insert_ne, Hp.
Qed.

(** X10.  Scenario C for every type and record: on a Channel constructed
    without artifacts, binding a newly built producer record and reading
    producer_info back yields a record with the component id and key that
    were given, and the Channel still reads as empty. *)
Theorem bind_producer_info_round_trip cls c k (h : heap) :
  ∃ h',
    (ch ← Channel.__init__ (TClass cls) None None;
     p ← ChannelProducerInfo.__init__ c k;
     ch ← Channel.set_producer_info ch (Some p);
     r ← Channel.get_producer_info ch;
     xs ← Channel.read ch;
     match r with
     | Some p' => id ← ChannelProducerInfo.component_id p';
                  key ← ChannelProducerInfo.key p';
                  mret (id, key, xs)
     | None => raise (AttributeError "component_id")
     end) h = (h', inr (c, k, [])) ∧
    h ⊆ h'.
Proof.
  set (l := fresh (dom h)). set (h1 := <[l := OList []]> h).
  set (p := fresh (dom h1)). set (h2 := <[p := OProducerInfo c k]> h1).
  assert (h1 !! l = Some (OList [])) as Hl1 by apply lookup_insert_eq.
  assert (h2 !! p = Some (OProducerInfo c k)) as Hp by apply lookup_insert_eq.
  assert (l ≠ p) as Hne.
  { intros Heq. pose proof (fresh_not_in_heap h1) as Hf.
    fold p in Hf. rewrite <- Heq in Hf. by rewrite Hl1 in Hf. }
  assert (h2 !! l = Some (OList [])) as Hl2
    by (unfold h2; by rewrite lookup_insert_ne).
  exists h2. split.
  - erewrite bind_ret_run; last first.
    { rewrite (init_unfold cls None None h h1 l eq_refl), Hl1. reflexivity. }
    erewrite bind_ret_run by reflexivity.
    unfold Channel.set_producer_info, Channel.get_producer_info,
      Channel.read, Channel.get, list_contents,
      ChannelProducerInfo.component_id, ChannelProducerInfo.key,
      mbind, M_bind, mret, M_ret.
    simpl. fold l h1 p h2. rewrite Hl2. simpl. rewrite Hp. simpl.
    by rewrite Hp.
  - etrans; apply insert_subseteq, fresh_not_in_heap.
Qed.

(** ** All outcomes of the executor *)

Section DoOutcomes.

Import Executor.

Variable runner_outcome :
  artifact_dict → artifact_dict → gmap string value → string →
  value → value → exn + value.

(** X11.  A custom_config entry that is present but is not a dictionary,
    None included, is not treated as missing: Do raises an AttributeError
    from its lookup right after the startup log, logs no error of its own
    and submits no job. *)
Theorem Do_custom_config_not_a_dict i o (ep : gmap string value) v tr :
  ep !! "custom_config" = Some v →
  (∀ d, v ≠ VDict d) →
  ∃ msg,
    Do runner_outcome i o ep tr =
      (tr ++ [LogStartup i o ep], inl (AttributeError msg)).
Proof.
  intros Hcfg Hnd. exists "get". unfold Do. rewrite Hcfg.
  unfold dict_get, emit, raise, mbind, M_bind. simpl.
  destruct v as [| | |d]; try done. by destruct (Hnd d).
Qed.

(** X12.  Whatever its arguments, Do keeps the events recorded before it,
    logs its startup first, and then has exactly one of three outcomes:
    it raises an AttributeError and does nothing more; or it logs the
    missing-arguments error and raises it as a ValueError; or it submits
    one job, with training arguments that are not None, and ends as the
    runner does.  So it never returns normally without having submitted a
    job, never submits twice, and passes a runner's error on unchanged. *)
Theorem Do_outcomes i o (ep : gmap string value) tr :
  ∃ rest,
    fst (Do runner_outcome i o ep tr) = tr ++ LogStartup i o ep :: rest ∧
    ((rest = [] ∧
      ∃ msg, snd (Do runner_outcome i o ep tr) = inl (AttributeError msg)) ∨
     (rest = [LogError not_found_msg] ∧
      snd (Do runner_outcome i o ep tr) = inl (ValueError not_found_msg)) ∨
     (∃ training_inputs job_id,
        training_inputs ≠ VNone ∧
        rest = [StartAipTraining i o ep executor_class_path
                  training_inputs job_id] ∧
        snd (Do runner_outcome i o ep tr) =
          runner_outcome i o ep executor_class_path training_inputs job_id)).
Proof.
  destruct (default (VDict ∅) (ep !! "custom_config")) as [| | |d] eqn:Hcfg.
  1-3: exists []; unfold Do; rewrite Hcfg;
       unfold dict_get, emit, raise, mbind, M_bind; simpl;
       (split; [done|]); left; split; [done|]; by exists "get".
  rewrite (Do_with_dict runner_outcome i o ep d tr Hcfg).
  destruct (default VNone (d !! TRAINING_ARGS_KEY)) as [|s|n|d'] eqn:Hti.
  - exists [LogError not_found_msg]. split; [done|]. right. left. done.
  - eexists. split; [done|]. right. right.
    by exists (VStr s), (default VNone (d !! JOB_ID_KEY)).
  - eexists. split; [done|]. right. right.
    by exists (VInt n), (default VNone (d !! JOB_ID_KEY)).
  - eexists. split; [done|]. right. right.
    by exists (VDict d'), (default VNone (d !! JOB_ID_KEY)).
Qed.

End DoOutcomes.

Lemma Do_custom_config_not_a_dict_witness :
  ∃ msg,
    Executor.Do Scenario.job_succeeds ∅ ∅
      (<["custom_config" := Executor.VNone]> ∅) [] =
      ([] ++ [Executor.LogStartup ∅ ∅
                (<["custom_config" := Executor.VNone]> ∅)],
       inl (AttributeError msg)).
Proof.
  refine (Do_custom_config_not_a_dict Scenario.job_succeeds ∅ ∅
            (<["custom_config" := Executor.VNone]> ∅) Executor.VNone [] _ _).
  - reflexivity.
  - discriminate.
Defined.
